(** * The generated class dispatcher, the wrap interface file and DerivedValue

    A shallow embedding of

    - [wrap/tests/expected_namespaces/new_ClassD_.cpp]: the entry point the
      wrap generator emits for class [ClassD], with its handle registry
      [collector] and its exit hook [cleanup];
    - [gtsam.h]: the interface file handed to the generator, as the list of
      its class declarations;
    - [gtsam/base/DerivedValue.h]: the adapter from a concrete value type to
      the generic [Value] interface.  *)

From stdpp Require Import gmap strings list sorting.

Local Set Warnings "-clear-no-such-hyp".

(** ** new_ClassD_.cpp *)

(** [Shared*]: the address of a heap cell holding a
    [boost::shared_ptr<ClassD>].  Addresses are machine words; the null
    pointer is the word zero. *)
Abbreviation ptr := N.
Definition null : ptr := 0%N.

(** Modelled from the spec: the kinds of dispatch error.  The dispatcher
    itself calls no error routine; only the marshalling template it uses can
    raise. *)
Inductive DispatchError := UnknownHandle | UnknownSelector | MarshalError.

(** Modelled from the spec: the host's array type [mxArray] and the
    marshalling template [unwrap<int>] of [wrap/matlab.h] are not among the
    sources.  An input slot is represented by the two things the dispatcher
    reads from it: the pointer-sized word at the start of its data buffer
    (what [mxGetData(input)] points at, read as a [Shared] pointer) and the
    integer [unwrap<int>] extracts from it, [None] when the slot does not
    hold an integer scalar and the template reports a boundary type
    mismatch. *)
Record mxArray := MxArray {
  mxGetData : ptr;
  unwrap_int : option Z
}.

(** [out[0]] after [mxCreateNumericMatrix(1, 1, mxUINT32OR64_CLASS, mxREAL)]
    and the store of [self] through [mxGetPr]: a real 1x1 unsigned-integer
    matrix whose only element is the pointer. *)
Record mxNumericMatrix := NumericMatrix {
  mx_rows : nat;
  mx_cols : nat;
  mx_word : ptr
}.

(** The state a call can read or change: the file-level [collector], the
    [Shared] cells that [new] has handed out and [delete] has not yet taken
    back, the operands of every [delete] executed so far (most recent
    first), and whether [cleanup] has been handed to the host as exit
    hook. *)
Record state := State {
  collector : gset ptr;
  live : gset ptr;
  deleted : list ptr;
  at_exit : bool
}.

Global Instance state_eq_dec : EqDecision state.
Proof. solve_decision. Defined.

(** [collector.insert(p)] *)
Definition collector_insert (p : ptr) (s : state) : state :=
  State ({[p]} ∪ collector s) (live s) (deleted s) (at_exit s).

(** [collector.erase(p)]: the number of elements removed, and the state. *)
Definition collector_erase (p : ptr) (s : state) : nat * state :=
  (if decide (p ∈ collector s) then 1 else 0,
   State (collector s ∖ {[p]}) (live s) (deleted s) (at_exit s)).

(** [delete p]: the cell is destroyed and its address recorded.  The
    statement is defined only when [p] is the address of an allocated
    cell; [None] stands for the undefined behaviour otherwise. *)
Definition delete_ (p : ptr) (s : state) : option state :=
  if decide (p ∈ live s)
  then Some (State (collector s) (live s ∖ {[p]}) (p :: deleted s)
                   (at_exit s))
  else None.

(** [mexAtExit(cleanup)] *)
Definition mexAtExit (s : state) : state :=
  State (collector s) (live s) (deleted s) true.

(** [struct Destruct]: [operator()] erases its argument from the collector
    and does nothing else. *)
Definition Destruct (p : ptr) (s : state) : state := snd (collector_erase p s).

(** How a traversal of the collector ends: at [last], or in the state in
    which an iterator was advanced whose element had been erased, after
    which nothing is known. *)
Inductive traversal :=
| Completed (s : state)
| Invalidated (s : state).

(** The state a traversal got to. *)
Definition reached (t : traversal) : state :=
  match t with
  | Completed s => s
  | Invalidated s => s
  end.

(** [std::for_each(first, last, f)] over iterators of the collector: [f]
    is applied to the element under the iterator and the iterator is then
    advanced, which is defined only while that element is still in the
    collector.  The functor of this file changes the collector by erasing
    the element it is given and in no other way, so the elements ahead of
    the iterator are those of the range at the call. *)
Fixpoint for_each (range : list ptr) (f : ptr → state → state)
    (s : state) : traversal :=
  match range with
  | [] => Completed s
  | p :: rest =>
    let s1 := f p s in
    if decide (p ∈ collector s1) then for_each rest f s1
    else Invalidated s1
  end.

(** [collector.begin()] to [collector.end()]: the handles in ascending
    order of address. *)
Definition collector_range (s : state) : list ptr :=
  merge_sort N.le (elements (collector s)).

(** [cleanup] *)
Definition cleanup (s : state) : traversal :=
  for_each (collector_range s) Destruct s.

(** What one invocation of the entry point amounts to: a normal return with
    the new state and the content of [out[0]] ([None] when the slot was not
    assigned), an error raised by the marshalling layer, or undefined
    behaviour (a read past the [nargin] input slots, a [delete] of what is
    not an allocated cell), after which nothing is known. *)
Inductive outcome :=
| Return (s : state) (out0 : option mxNumericMatrix)
| Raise (e : DispatchError) (s : state)
| Undefined.

Section Dispatch.

(** [operator new]: the allocator picks the address of the new cell,
    given the cells in use. *)
Variable operator_new : gset ptr → ptr.

(** [new Shared(new ClassD())] *)
Definition new_Shared (s : state) : ptr * state :=
  let p := operator_new (live s) in
  (p, State (collector s) ({[p]} ∪ live s) (deleted s) (at_exit s)).

(** [mexFunction]; [nargin] is the number of input slots, and [nargout] is
    not looked at. *)
Definition mexFunction (s : state) (in_ : list mxArray) : outcome :=
  let nargin := length in_ in
  let s := mexAtExit s in
  match in_ !! 0%nat with
  | None => Undefined
  | Some input =>
    let self := mxGetData input in
    if decide (self ≠ null) then
      if decide (1 < nargin) then
        Return (collector_insert self s) None
      else
        let '(n, s1) := collector_erase self s in
        if decide (n ≠ 0) then
          match delete_ self s1 with
          | Some s2 => Return s2 None
          | None => Undefined
          end
        else Return s1 None
    else
      match in_ !! 1%nat with
      | None => Undefined
      | Some in1 =>
        match unwrap_int in1 with
        | None => Raise MarshalError s
        | Some nc =>
          let '(self, s1) :=
            if decide (nc = 0%Z) then new_Shared s else (self, s) in
          Return (collector_insert self s1) (Some (NumericMatrix 1 1 self))
        end
      end
  end.

(** What the host does with a loaded dispatcher: call the entry point, or
    unload the module, which runs the exit hook if one was handed over.  A
    sequence of events runs on only while the behaviour is defined. *)
Inductive event :=
| Call (in_ : list mxArray)
| Unload.

Definition step (s : state) (e : event) : option state :=
  match e with
  | Call in_ =>
    match mexFunction s in_ with
    | Return s' _ => Some s'
    | Raise _ s' => Some s'
    | Undefined => None
    end
  | Unload =>
    if at_exit s then
      match cleanup s with
      | Completed s' => Some s'
      | Invalidated _ => None
      end
    else Some s
  end.

Fixpoint run (s : state) (es : list event) : option state :=
  match es with
  | [] => Some s
  | e :: es' =>
    match step s e with
    | Some s' => run s' es'
    | None => None
    end
  end.

(** A release request for the handle [h]: a single input slot, holding
    [h], which is not null. *)
Definition is_release (h : ptr) (in_ : list mxArray) : Prop :=
  ∃ a, in_ = [a] ∧ mxGetData a = h ∧ h ≠ null.

End Dispatch.

(** An allocator to run the dispatcher with: some address that is neither
    null nor in use. *)
Definition bump_allocator (X : gset ptr) : ptr := fresh ({[null]} ∪ X).

(** ** gtsam.h *)

(** Modelled from the spec: the declaration model of the generator, whose
    parser is not among the sources.  A class sits inside nested namespaces
    and has an optional include override, constructors and methods;
    arguments are passed by value, by const reference or, for shared
    ownership, by pointer. *)
Inductive PassingMode := ByValue | ByReference | ByPointer.

Record ArgumentSpec := Arg {
  arg_const : bool;
  arg_type : string;
  arg_mode : PassingMode;
  arg_name : string
}.

Record ReturnSpec := Ret {
  ret_type : string;
  ret_shared : bool
}.

Record MethodDecl := MkMethod {
  m_static : bool;
  m_return : ReturnSpec;
  m_name : string;
  m_args : list ArgumentSpec;
  m_const : bool
}.

Record ClassDecl := MkClass {
  c_namespaces : list string;
  c_name : string;
  c_include : option string;
  c_constructors : list (list ArgumentSpec);
  c_methods : list MethodDecl
}.

Abbreviation InterfaceFile := (list ClassDecl).

(** Shorthands that follow the surface syntax of a declaration. *)
Definition val (ty name : string) : ArgumentSpec := Arg false ty ByValue name.
Definition cref (ty name : string) : ArgumentSpec :=
  Arg true ty ByReference name.
Definition sptr (ty name : string) : ArgumentSpec :=
  Arg false ty ByPointer name.
Definition by_value (ty : string) : ReturnSpec := Ret ty false.
Definition shared (ty : string) : ReturnSpec := Ret ty true.
Definition static_ (r : ReturnSpec) (name : string)
    (args : list ArgumentSpec) : MethodDecl := MkMethod true r name args false.
Definition method (r : ReturnSpec) (name : string)
    (args : list ArgumentSpec) : MethodDecl := MkMethod false r name args false.
Definition const_method (r : ReturnSpec) (name : string)
    (args : list ArgumentSpec) : MethodDecl := MkMethod false r name args true.

(** The classes of [gtsam.h], in the order of the file; text inside
    comments declares nothing. *)

Definition Point2 : ClassDecl :=
  MkClass [] "Point2" None
    [ [];
      [val "double" "x"; val "double" "y"] ]
    [ static_ (by_value "Point2") "Expmap" [val "Vector" "v"];
      static_ (by_value "Vector") "Logmap" [cref "Point2" "p"];
      const_method (by_value "void") "print" [val "string" "s"];
      method (by_value "double") "x" [];
      method (by_value "double") "y" [];
      method (by_value "Vector") "localCoordinates" [cref "Point2" "p"];
      method (by_value "Point2") "compose" [cref "Point2" "p2"];
      method (by_value "Point2") "between" [cref "Point2" "p2"];
      method (by_value "Point2") "retract" [val "Vector" "v"] ].

Definition Point3 : ClassDecl :=
  MkClass [] "Point3" None
    [ [];
      [val "double" "x"; val "double" "y"; val "double" "z"];
      [val "Vector" "v"] ]
    [ static_ (by_value "Point3") "Expmap" [val "Vector" "v"];
      static_ (by_value "Vector") "Logmap" [cref "Point3" "p"];
      const_method (by_value "void") "print" [val "string" "s"];
      method (by_value "bool") "equals" [cref "Point3" "p";
          val "double" "tol"];
      const_method (by_value "Vector") "vector" [];
      method (by_value "double") "x" [];
      method (by_value "double") "y" [];
      method (by_value "double") "z" [];
      method (by_value "Vector") "localCoordinates" [cref "Point3" "p"];
      method (by_value "Point3") "retract" [val "Vector" "v"];
      method (by_value "Point3") "compose" [cref "Point3" "p2"];
      method (by_value "Point3") "between" [cref "Point3" "p2"] ].

Definition Rot2 : ClassDecl :=
  MkClass [] "Rot2" None
    [ [];
      [val "double" "theta"] ]
    [ static_ (by_value "Rot2") "Expmap" [val "Vector" "v"];
      static_ (by_value "Vector") "Logmap" [cref "Rot2" "p"];
      static_ (by_value "Rot2") "fromAngle" [val "double" "theta"];
      static_ (by_value "Rot2") "fromDegrees" [val "double" "theta"];
      static_ (by_value "Rot2") "fromCosSin" [val "double" "c";
          val "double" "s"];
      static_ (by_value "Rot2") "relativeBearing" [cref "Point2" "d"];
      static_ (by_value "Rot2") "atan2" [val "double" "y"; val "double" "x"];
      const_method (by_value "void") "print" [val "string" "s"];
      const_method (by_value "bool") "equals" [cref "Rot2" "rot";
          val "double" "tol"];
      const_method (by_value "double") "theta" [];
      const_method (by_value "double") "degrees" [];
      const_method (by_value "double") "c" [];
      const_method (by_value "double") "s" [];
      method (by_value "Vector") "localCoordinates" [cref "Rot2" "p"];
      method (by_value "Rot2") "retract" [val "Vector" "v"];
      method (by_value "Rot2") "compose" [cref "Rot2" "p2"];
      method (by_value "Rot2") "between" [cref "Rot2" "p2"] ].

Definition Rot3 : ClassDecl :=
  MkClass [] "Rot3" None
    [ [];
      [val "Matrix" "R"] ]
    [ static_ (by_value "Rot3") "Expmap" [val "Vector" "v"];
      static_ (by_value "Vector") "Logmap" [cref "Rot3" "p"];
      static_ (by_value "Rot3") "ypr" [val "double" "y"; val "double" "p";
          val "double" "r"];
      static_ (by_value "Rot3") "Rx" [val "double" "t"];
      static_ (by_value "Rot3") "Ry" [val "double" "t"];
      static_ (by_value "Rot3") "Rz" [val "double" "t"];
      static_ (by_value "Rot3") "RzRyRx" [val "double" "x"; val "double" "y";
          val "double" "z"];
      static_ (by_value "Rot3") "RzRyRx" [cref "Vector" "xyz"];
      static_ (by_value "Rot3") "yaw" [val "double" "t"];
      static_ (by_value "Rot3") "pitch" [val "double" "t"];
      static_ (by_value "Rot3") "roll" [val "double" "t"];
      static_ (by_value "Rot3") "quaternion" [val "double" "w";
          val "double" "x"; val "double" "y"; val "double" "z"];
      static_ (by_value "Rot3") "rodriguez" [cref "Vector" "v"];
      const_method (by_value "Matrix") "matrix" [];
      const_method (by_value "Matrix") "transpose" [];
      const_method (by_value "Vector") "xyz" [];
      const_method (by_value "Vector") "ypr" [];
      const_method (by_value "double") "roll" [];
      const_method (by_value "double") "pitch" [];
      const_method (by_value "double") "yaw" [];
      const_method (by_value "void") "print" [val "string" "s"];
      const_method (by_value "bool") "equals" [cref "Rot3" "rot";
          val "double" "tol"];
      method (by_value "Vector") "localCoordinates" [cref "Rot3" "p"];
      method (by_value "Rot3") "retract" [val "Vector" "v"];
      method (by_value "Rot3") "compose" [cref "Rot3" "p2"];
      method (by_value "Rot3") "between" [cref "Rot3" "p2"] ].

Definition Pose2 : ClassDecl :=
  MkClass [] "Pose2" None
    [ [];
      [val "double" "x"; val "double" "y"; val "double" "theta"];
      [val "double" "theta"; cref "Point2" "t"];
      [cref "Rot2" "r"; cref "Point2" "t"];
      [val "Vector" "v"] ]
    [ static_ (by_value "Pose2") "Expmap" [val "Vector" "v"];
      static_ (by_value "Vector") "Logmap" [cref "Pose2" "p"];
      const_method (by_value "void") "print" [val "string" "s"];
      const_method (by_value "bool") "equals" [cref "Pose2" "pose";
          val "double" "tol"];
      const_method (by_value "double") "x" [];
      const_method (by_value "double") "y" [];
      const_method (by_value "double") "theta" [];
      const_method (by_value "int") "dim" [];
      method (by_value "Vector") "localCoordinates" [cref "Pose2" "p"];
      method (by_value "Pose2") "retract" [val "Vector" "v"];
      method (by_value "Pose2") "compose" [cref "Pose2" "p2"];
      method (by_value "Pose2") "between" [cref "Pose2" "p2"];
      method (by_value "Rot2") "bearing" [cref "Point2" "point"];
      method (by_value "double") "range" [cref "Point2" "point"] ].

Definition Pose3 : ClassDecl :=
  MkClass [] "Pose3" None
    [ [];
      [cref "Rot3" "r"; cref "Point3" "t"];
      [val "Vector" "v"];
      [val "Matrix" "t"] ]
    [ static_ (by_value "Pose3") "Expmap" [val "Vector" "v"];
      static_ (by_value "Vector") "Logmap" [cref "Pose3" "p"];
      const_method (by_value "void") "print" [val "string" "s"];
      const_method (by_value "bool") "equals" [cref "Pose3" "pose";
          val "double" "tol"];
      const_method (by_value "double") "x" [];
      const_method (by_value "double") "y" [];
      const_method (by_value "double") "z" [];
      const_method (by_value "Matrix") "matrix" [];
      const_method (by_value "Matrix") "adjointMap" [];
      method (by_value "Pose3") "compose" [cref "Pose3" "p2"];
      method (by_value "Pose3") "between" [cref "Pose3" "p2"];
      method (by_value "Pose3") "retract" [val "Vector" "v"];
      const_method (by_value "Point3") "translation" [];
      const_method (by_value "Rot3") "rotation" [] ].

Definition SharedGaussian : ClassDecl :=
  MkClass [] "SharedGaussian" None
    [ [val "Matrix" "covariance"] ]
    [ const_method (by_value "void") "print" [val "string" "s"] ].

Definition SharedDiagonal : ClassDecl :=
  MkClass [] "SharedDiagonal" None
    [ [val "Vector" "sigmas"] ]
    [ const_method (by_value "void") "print" [val "string" "s"];
      const_method (by_value "Vector") "sample" [] ].

Definition SharedNoiseModel : ClassDecl :=
  MkClass [] "SharedNoiseModel" (Some "gtsam/linear/SharedGaussian.h")
    [ [cref "SharedDiagonal" "model"];
      [cref "SharedGaussian" "model"] ]
    [].

Definition VectorValues : ClassDecl :=
  MkClass [] "VectorValues" None
    [ [];
      [val "int" "nVars"; val "int" "varDim"] ]
    [ const_method (by_value "void") "print" [val "string" "s"];
      const_method (by_value "bool") "equals" [cref "VectorValues" "expected";
          val "double" "tol"];
      const_method (by_value "int") "size" [];
      method (by_value "void") "insert" [val "int" "j";
          cref "Vector" "value"] ].

Definition GaussianConditional : ClassDecl :=
  MkClass [] "GaussianConditional" None
    [ [val "int" "key"; val "Vector" "d"; val "Matrix" "R";
          val "Vector" "sigmas"];
      [val "int" "key"; val "Vector" "d"; val "Matrix" "R"; val "int" "name1";
          val "Matrix" "S"; val "Vector" "sigmas"];
      [val "int" "key"; val "Vector" "d"; val "Matrix" "R"; val "int" "name1";
          val "Matrix" "S"; val "int" "name2"; val "Matrix" "T";
          val "Vector" "sigmas"] ]
    [ const_method (by_value "void") "print" [val "string" "s"];
      const_method (by_value "bool") "equals"
          [cref "GaussianConditional" "cg"; val "double" "tol"] ].

Definition GaussianBayesNet : ClassDecl :=
  MkClass [] "GaussianBayesNet" None
    [ [] ]
    [ const_method (by_value "void") "print" [val "string" "s"];
      const_method (by_value "bool") "equals" [cref "GaussianBayesNet" "cbn";
          val "double" "tol"];
      method (by_value "void") "push_back"
          [sptr "GaussianConditional" "conditional"];
      method (by_value "void") "push_front"
          [sptr "GaussianConditional" "conditional"] ].

Definition GaussianFactor : ClassDecl :=
  MkClass [] "GaussianFactor" None
    []
    [ const_method (by_value "void") "print" [val "string" "s"];
      const_method (by_value "bool") "equals" [cref "GaussianFactor" "lf";
          val "double" "tol"];
      const_method (by_value "double") "error" [cref "VectorValues" "c"] ].

Definition JacobianFactor : ClassDecl :=
  MkClass [] "JacobianFactor" None
    [ [];
      [val "Vector" "b_in"];
      [val "int" "i1"; val "Matrix" "A1"; val "Vector" "b";
          cref "SharedDiagonal" "model"];
      [val "int" "i1"; val "Matrix" "A1"; val "int" "i2"; val "Matrix" "A2";
          val "Vector" "b"; cref "SharedDiagonal" "model"];
      [val "int" "i1"; val "Matrix" "A1"; val "int" "i2"; val "Matrix" "A2";
          val "int" "i3"; val "Matrix" "A3"; val "Vector" "b";
          cref "SharedDiagonal" "model"] ]
    [ const_method (by_value "void") "print" [val "string" "s"];
      const_method (by_value "bool") "equals" [cref "GaussianFactor" "lf";
          val "double" "tol"];
      const_method (by_value "bool") "empty" [];
      const_method (by_value "Vector") "getb" [];
      const_method (by_value "double") "error" [cref "VectorValues" "c"];
      method (shared "GaussianConditional") "eliminateFirst" [] ].

Definition GaussianFactorGraph : ClassDecl :=
  MkClass [] "GaussianFactorGraph" None
    [ [] ]
    [ const_method (by_value "void") "print" [val "string" "s"];
      const_method (by_value "bool") "equals"
          [cref "GaussianFactorGraph" "lfgraph"; val "double" "tol"];
      const_method (by_value "int") "size" [];
      method (by_value "void") "push_back" [sptr "GaussianFactor" "ptr_f"];
      const_method (by_value "double") "error" [cref "VectorValues" "c"];
      const_method (by_value "double") "probPrime" [cref "VectorValues" "c"];
      method (by_value "void") "combine" [cref "GaussianFactorGraph" "lfg"];
      const_method (by_value "Matrix") "denseJacobian" [];
      const_method (by_value "Matrix") "denseHessian" [];
      const_method (by_value "Matrix") "sparseJacobian_" [] ].

Definition GaussianSequentialSolver : ClassDecl :=
  MkClass [] "GaussianSequentialSolver" None
    [ [cref "GaussianFactorGraph" "graph"; val "bool" "useQR"] ]
    [ const_method (shared "GaussianBayesNet") "eliminate" [];
      const_method (shared "VectorValues") "optimize" [];
      const_method (shared "GaussianFactor") "marginalFactor" [val "int" "j"];
      const_method (by_value "Matrix") "marginalCovariance" [val "int" "j"] ].

Definition KalmanFilter : ClassDecl :=
  MkClass [] "KalmanFilter" None
    [ [val "Vector" "x"; cref "SharedDiagonal" "model"] ]
    [ const_method (by_value "void") "print" [val "string" "s"];
      const_method (by_value "Vector") "mean" [];
      const_method (by_value "Matrix") "information" [];
      const_method (by_value "Matrix") "covariance" [];
      method (by_value "void") "predict" [val "Matrix" "F"; val "Matrix" "B";
          val "Vector" "u"; cref "SharedDiagonal" "model"];
      method (by_value "void") "predict2" [val "Matrix" "A0";
          val "Matrix" "A1"; val "Vector" "b"; cref "SharedDiagonal" "model"];
      method (by_value "void") "update" [val "Matrix" "H"; val "Vector" "z";
          cref "SharedDiagonal" "model"] ].

Definition Ordering : ClassDecl :=
  MkClass [] "Ordering" None
    [ [] ]
    [ const_method (by_value "void") "print" [val "string" "s"];
      const_method (by_value "bool") "equals" [cref "Ordering" "ord";
          val "double" "tol"];
      method (by_value "void") "push_back" [val "string" "key"] ].

Definition planarSLAM_Values : ClassDecl :=
  MkClass ["planarSLAM"] "Values" (Some "gtsam/slam/planarSLAM.h")
    [ [] ]
    [ const_method (by_value "void") "print" [val "string" "s"];
      const_method (by_value "Pose2") "pose" [val "int" "key"];
      const_method (by_value "Point2") "point" [val "int" "key"];
      method (by_value "void") "insertPose" [val "int" "key";
          cref "Pose2" "pose"];
      method (by_value "void") "insertPoint" [val "int" "key";
          cref "Point2" "point"] ].

Definition planarSLAM_Graph : ClassDecl :=
  MkClass ["planarSLAM"] "Graph" (Some "gtsam/slam/planarSLAM.h")
    [ [] ]
    [ const_method (by_value "void") "print" [val "string" "s"];
      const_method (by_value "double") "error"
          [cref "planarSLAM::Values" "values"];
      const_method (shared "Ordering") "orderingCOLAMD"
          [cref "planarSLAM::Values" "values"];
      const_method (shared "GaussianFactorGraph") "linearize"
          [cref "planarSLAM::Values" "values"; cref "Ordering" "ordering"];
      method (by_value "void") "addPrior" [val "int" "key";
          cref "Pose2" "pose"; cref "SharedNoiseModel" "noiseModel"];
      method (by_value "void") "addPoseConstraint" [val "int" "key";
          cref "Pose2" "pose"];
      method (by_value "void") "addOdometry" [val "int" "key1";
          val "int" "key2"; cref "Pose2" "odometry";
          cref "SharedNoiseModel" "noiseModel"];
      method (by_value "void") "addBearing" [val "int" "poseKey";
          val "int" "pointKey"; cref "Rot2" "bearing";
          cref "SharedNoiseModel" "noiseModel"];
      method (by_value "void") "addRange" [val "int" "poseKey";
          val "int" "pointKey"; val "double" "range";
          cref "SharedNoiseModel" "noiseModel"];
      method (by_value "void") "addBearingRange" [val "int" "poseKey";
          val "int" "pointKey"; cref "Rot2" "bearing"; val "double" "range";
          cref "SharedNoiseModel" "noiseModel"];
      method (by_value "planarSLAM::Values") "optimize"
          [cref "planarSLAM::Values" "initialEstimate"] ].

Definition planarSLAM_Odometry : ClassDecl :=
  MkClass ["planarSLAM"] "Odometry" (Some "gtsam/slam/planarSLAM.h")
    [ [val "int" "key1"; val "int" "key2"; cref "Pose2" "measured";
          cref "SharedNoiseModel" "model"] ]
    [ const_method (by_value "void") "print" [val "string" "s"];
      const_method (shared "GaussianFactor") "linearize"
          [cref "planarSLAM::Values" "center"; cref "Ordering" "ordering"] ].

Definition simulated2D_Values : ClassDecl :=
  MkClass ["simulated2D"] "Values" (Some "gtsam/slam/simulated2D.h")
    [ [] ]
    [ method (by_value "void") "insertPose" [val "int" "i";
          cref "Point2" "p"];
      method (by_value "void") "insertPoint" [val "int" "j";
          cref "Point2" "p"];
      const_method (by_value "int") "nrPoses" [];
      const_method (by_value "int") "nrPoints" [];
      method (by_value "Point2") "pose" [val "int" "i"];
      method (by_value "Point2") "point" [val "int" "j"] ].

Definition simulated2D_Graph : ClassDecl :=
  MkClass ["simulated2D"] "Graph" (Some "gtsam/slam/simulated2D.h")
    [ [] ]
    [].

Definition simulated2DOriented_Values : ClassDecl :=
  MkClass ["simulated2DOriented"] "Values"
    (Some "gtsam/slam/simulated2DOriented.h")
    [ [] ]
    [ method (by_value "void") "insertPose" [val "int" "i"; cref "Pose2" "p"];
      method (by_value "void") "insertPoint" [val "int" "j";
          cref "Point2" "p"];
      const_method (by_value "int") "nrPoses" [];
      const_method (by_value "int") "nrPoints" [];
      method (by_value "Pose2") "pose" [val "int" "i"];
      method (by_value "Point2") "point" [val "int" "j"] ].

Definition simulated2DOriented_Graph : ClassDecl :=
  MkClass ["simulated2DOriented"] "Graph"
    (Some "gtsam/slam/simulated2DOriented.h")
    [ [] ]
    [].

Definition gtsam_h : InterfaceFile :=
  [Point2; Point3; Rot2; Rot3; Pose2; Pose3; SharedGaussian; SharedDiagonal;
   SharedNoiseModel; VectorValues; GaussianConditional; GaussianBayesNet;
   GaussianFactor; JacobianFactor; GaussianFactorGraph;
   GaussianSequentialSolver; KalmanFilter; Ordering; planarSLAM_Values;
   planarSLAM_Graph; planarSLAM_Odometry; simulated2D_Values;
   simulated2D_Graph; simulated2DOriented_Values;
   simulated2DOriented_Graph].

(** The names of a class's methods, static or not, in declaration order. *)
Definition method_names (c : ClassDecl) : list string :=
  m_name <$> c_methods c.

(** The invariant of a class declaration: no method name occurs twice. *)
Definition unique_method_names (c : ClassDecl) : Prop :=
  NoDup (method_names c).

Global Instance unique_method_names_dec c : Decision (unique_method_names c).
Proof. unfold unique_method_names. apply _. Defined.

(** The declarations that repeat a name already declared earlier in the
    class, in declaration order. *)
Fixpoint redeclared (seen names : list string) : list string :=
  match names with
  | [] => []
  | n :: rest =>
    if decide (n ∈ seen) then n :: redeclared seen rest
    else redeclared (n :: seen) rest
  end.

Definition duplicated_names (c : ClassDecl) : list string :=
  redeclared [] (method_names c).

(** The name of a class with its namespace path, as type references spell
    it. *)
Definition qualified_name (c : ClassDecl) : string :=
  foldr (λ ns acc, ns +:+ "::" +:+ acc) (c_name c) (c_namespaces c).

(** Modelled from the spec: the kinds of error of the validator. *)
Inductive SemanticError :=
| BadCasing (decl : string)
| DuplicateMethod (class method_name : string)
| UnresolvedType (type_name : string)
| BadNamespaceClose.

(** Modelled from the spec: the validator of the generator is not among the
    sources.  Its check for duplicate method names fails a class that
    declares two methods of one name with [DuplicateMethod]; a file is
    reported class by class, in order. *)
Definition check_duplicate_methods (c : ClassDecl) : option SemanticError :=
  match duplicated_names c with
  | [] => None
  | n :: _ => Some (DuplicateMethod (qualified_name c) n)
  end.

Definition duplicate_method_errors (f : InterfaceFile) : list SemanticError :=
  omap check_duplicate_methods f.

(** ** DerivedValue.h *)

Section DerivedValue.

(** Eigen's [Vector] and the machine's [double] are used as given. *)
Context (Vector Double : Type).

(** What [DerivedValue<DERIVED>] calls on [DERIVED]. *)
Class Derived (D : Type) := {
  equals : D → D → Double → bool;
  retract : D → Vector → D;
  localCoordinates : D → D → Vector
}.

(** The classes that derive from [Value] through [DerivedValue]: a run-time
    type identity for each, the objects of the class, and the class's own
    operations. *)
Context {type_info : Type} `{EqDecision type_info}.
Context (object : type_info → Type) `{∀ c, Derived (object c)}.

(** The inheritance between those classes: [subobject c' c] is the view of
    an object of class [c'] as an object of its base class [c] when [c'] is
    publicly and unambiguously derived from [c], and [None] when it is
    not. *)
Class Hierarchy :=
  subobject : ∀ c' c : type_info, option (object c' → object c).
Context `{Hierarchy}.

(** What a [Value&] or [Value*] refers to: an object together with its
    dynamic type. *)
Definition Value : Type := sigT object.

Definition upcast {c : type_info} (d : object c) : Value := existT c d.

Definition typeid (v : Value) : type_info := projT1 v.

(** A call either returns or throws [std::bad_cast]. *)
Inductive result (A : Type) :=
| Returns (a : A)
| bad_cast.
Global Arguments Returns {A} a.
Global Arguments bad_cast {A}.

(** [dynamic_cast<const DERIVED&>(p)]: the object itself when its class is
    [DERIVED], its [DERIVED] subobject when its class is derived from
    [DERIVED], and [std::bad_cast] otherwise. *)
Definition dynamic_cast (c : type_info) (p : Value) : result (object c) :=
  match decide (typeid p = c) with
  | left e => Returns (eq_rect (typeid p) object (projT2 p) c e)
  | right _ =>
    match subobject (typeid p) c with
    | Some view => Returns (view (projT2 p))
    | None => bad_cast
    end
  end.

(** The chunks handed out by the singleton pools and not yet freed, with
    the object constructed in each; [malloc] picks a chunk given the ones
    in use. *)
Variable singleton_pool_malloc : gset N → N.

(** [clone_] *)
Definition clone_ {c : type_info} (this : object c)
    (pool : gmap N Value) : N * gmap N Value :=
  let place := singleton_pool_malloc (dom pool) in
  (place, <[place := upcast this]> pool).

(** [deallocate_], on the chunk [this] lives in. *)
Definition deallocate_ (this : N) (pool : gmap N Value) : gmap N Value :=
  delete this pool.

(** [equals_]; the default tolerance is the caller's to supply. *)
Definition equals_ {c : type_info} (this : object c) (p : Value)
    (tol : Double) : result bool :=
  match dynamic_cast c p with
  | Returns derivedValue2 => Returns (equals this derivedValue2 tol)
  | bad_cast => bad_cast
  end.

(** [retract_]: the result of the class's [retract] is copied into a new
    chunk of the pool, whose address is returned as a [Value*]. *)
Definition retract_ {c : type_info} (this : object c) (delta : Vector)
    (pool : gmap N Value) : N * gmap N Value :=
  let retractResult := retract this delta in
  let resultAsValuePlace := singleton_pool_malloc (dom pool) in
  (resultAsValuePlace, <[resultAsValuePlace := upcast retractResult]> pool).

(** [localCoordinates_] *)
Definition localCoordinates_ {c : type_info} (this : object c)
    (value2 : Value) : result Vector :=
  match dynamic_cast c value2 with
  | Returns derivedValue2 => Returns (localCoordinates this derivedValue2)
  | bad_cast => bad_cast
  end.

End DerivedValue.

Arguments equals {Vector Double D _} _ _ _.
Arguments retract {Vector Double D _} _ _.
Arguments localCoordinates {Vector Double D _} _ _.
Arguments Value {type_info} object.
Arguments upcast {type_info object c} d.
Arguments typeid {type_info object} v.
Arguments Hierarchy {type_info} object.
Arguments subobject {type_info object _} c' c.
Arguments dynamic_cast {type_info _ object _} c p.
Arguments equals_ {Vector Double type_info _ object _ _ c} this p tol.
Arguments localCoordinates_ {Vector Double type_info _ object _ _ c}
  this value2.
Arguments retract_ {Vector Double type_info object _} singleton_pool_malloc
  {c} this delta pool.
Arguments clone_ {type_info object} singleton_pool_malloc {c} this pool.
Arguments deallocate_ {type_info object} this pool.

(** ** Requests and the registry invariant *)

(** A persistent registration: a call with a non-null first slot and at
    least one more input. *)
Definition persists (e : event) : bool :=
  match e with
  | Call (a :: _ :: _) => bool_decide (mxGetData a ≠ null)
  | _ => false
  end.

(** Every non-null handle of the collector is the address of an allocated
    cell. *)
Definition handles_live (s : state) : Prop :=
  ∀ h, h ∈ collector s → h ≠ null → h ∈ live s.

(** ** The rules gtsam.h states for itself *)

(** The header comment of the file: classes start with an uppercase
    letter, namespaces and methods with a lowercase one, static methods with
    a letter of either case. *)
Definition is_upper (c : Ascii.ascii) : bool :=
  (65 <=? Ascii.nat_of_ascii c) && (Ascii.nat_of_ascii c <=? 90).

Definition is_lower (c : Ascii.ascii) : bool :=
  (97 <=? Ascii.nat_of_ascii c) && (Ascii.nat_of_ascii c <=? 122).

Definition first_is (p : Ascii.ascii → bool) (s : string) : bool :=
  match s with
  | String c _ => p c
  | EmptyString => false
  end.

Definition method_well_cased (m : MethodDecl) : bool :=
  if m_static m
  then first_is (λ c, is_upper c || is_lower c) (m_name m)
  else first_is is_lower (m_name m).

Definition class_well_cased (c : ClassDecl) : bool :=
  first_is is_upper (c_name c)
  && forallb (first_is is_lower) (c_namespaces c)
  && forallb method_well_cased (c_methods c).

(** The types the header comment allows besides classes: the Eigen types
    and the basic C/C++ types, and [void] for a return. *)
Definition basic_types : list string :=
  ["Matrix"; "Vector"; "string"; "bool"; "size_t"; "int"; "double"].

(** The type names a class mentions: in its constructors' and methods'
    arguments, and as return types. *)
Definition argument_types (c : ClassDecl) : list string :=
  arg_type <$> (mjoin (c_constructors c) ++ mjoin (m_args <$> c_methods c)).

Definition return_types (c : ClassDecl) : list string :=
  (λ m, ret_type (m_return m)) <$> c_methods c.

(** A type name is resolved in a file when it is a basic type or the fully
    qualified name of a class the file declares. *)
Definition resolved (f : InterfaceFile) (ty : string) : Prop :=
  ty ∈ basic_types ∨ ty ∈ (qualified_name <$> f).

Global Instance resolved_dec (f : InterfaceFile) (ty : string) :
  Decision (resolved f ty).
Proof. unfold resolved. apply _. Defined.

Global Instance PassingMode_eq_dec : EqDecision PassingMode.
Proof. solve_decision. Defined.

(** ** A value type to run DerivedValue with *)

(** The integers as a value type of one dimension: two integers are equal
    up to a tolerance when they differ by no more than it, [retract] adds
    the increment and [localCoordinates] is the difference. *)
Definition Z_Derived : Derived Z Z Z :=
  {| equals := λ a b tol, bool_decide (Z.abs (a - b) ≤ tol)%Z;
     retract := λ a delta, (a + delta)%Z;
     localCoordinates := λ a b, (b - a)%Z |}.

(** * Properties *)

(** ** The registry operations *)

Lemma state_eq (s : state) (c l : gset ptr) (d : list ptr) (e : bool) :
  collector s = c → live s = l → deleted s = d → at_exit s = e →
  s = State c l d e.
Proof. destruct s; simpl; congruence. Qed.

Lemma mexAtExit_registered (s : state) : at_exit s = true → mexAtExit s = s.
Proof. intros He. symmetry. by apply state_eq. Qed.

Lemma collector_erase_absent (p : ptr) (s : state) :
  p ∉ collector s → collector_erase p s = (0, s).
Proof.
  intros Hp. unfold collector_erase. rewrite decide_False by done.
  f_equal. symmetry. apply state_eq; [set_solver | done | done | done].
Qed.

Lemma collector_erase_present (p : ptr) (s : state) :
  p ∈ collector s →
  collector_erase p s =
  (1, State (collector s ∖ {[p]}) (live s) (deleted s) (at_exit s)).
Proof. intros Hp. unfold collector_erase. by rewrite decide_True. Qed.

Lemma collector_insert_present (p : ptr) (s : state) :
  p ∈ collector s → collector_insert p s = s.
Proof.
  intros Hp. symmetry. apply state_eq; [set_solver | done | done | done].
Qed.

(** The range visits every handle of the collector, and only those. *)
Lemma elem_of_collector_range (p : ptr) (s : state) :
  p ∈ collector_range s ↔ p ∈ collector s.
Proof.
  unfold collector_range. rewrite merge_sort_Permutation.
  apply elem_of_elements.
Qed.

Lemma collector_range_nil (s : state) :
  collector_range s = [] ↔ collector s = ∅.
Proof.
  split.
  - intros Hnil. apply set_eq. intros p.
    rewrite <- elem_of_collector_range, Hnil. set_solver.
  - intros Hempty. destruct (collector_range s) as [|p l] eqn:Hr; [done|].
    assert (p ∈ collector s) as Hp.
    { apply elem_of_collector_range. rewrite Hr. apply list_elem_of_here. }
    rewrite Hempty in Hp. by apply not_elem_of_empty in Hp.
Qed.

(** The sweep ends at once on an empty collector; on any other it erases
    the first handle of the range and then advances the iterator that
    pointed at it. *)
Lemma cleanup_unfold (s : state) :
  cleanup s =
  match collector_range s with
  | [] => Completed s
  | p :: _ =>
    Invalidated (State (collector s ∖ {[p]}) (live s) (deleted s) (at_exit s))
  end.
Proof.
  unfold cleanup. destruct (collector_range s) as [|p l]; [done|].
  cbn. rewrite decide_False by set_solver. done.
Qed.

Lemma cleanup_Completed (s s' : state) :
  cleanup s = Completed s' ↔ collector s = ∅ ∧ s' = s.
Proof.
  rewrite cleanup_unfold, <- collector_range_nil.
  destruct (collector_range s) as [|p l].
  - split; [by intros [= <-] | by intros [_ ->]].
  - split; [done | by intros [? _]].
Qed.

Lemma cleanup_reached (s : state) :
  live (reached (cleanup s)) = live s
  ∧ deleted (reached (cleanup s)) = deleted s.
Proof.
  rewrite cleanup_unfold. by destruct (collector_range s).
Qed.

Lemma bump_allocator_fresh (X : gset ptr) : bump_allocator X ∉ X.
Proof.
  unfold bump_allocator. pose proof (is_fresh ({[null]} ∪ X)). set_solver.
Qed.

Lemma bump_allocator_nonnull (X : gset ptr) : bump_allocator X ≠ null.
Proof.
  unfold bump_allocator. pose proof (is_fresh ({[null]} ∪ X)). set_solver.
Qed.

(** An element of a duplicate-free list occurs in it exactly once. *)
Lemma occurs_never (x : ptr) (l : list ptr) :
  x ∉ l → filter (λ p, p = x) l = [].
Proof.
  induction l as [|y l IH]; intros Hx; [done|].
  apply not_elem_of_cons in Hx as [Hne Hx]. rewrite filter_cons.
  rewrite decide_False by congruence. by apply IH.
Qed.

Lemma occurs_once (x : ptr) (l : list ptr) :
  NoDup l → x ∈ l → length (filter (λ p, p = x) l) = 1.
Proof.
  induction l as [|y l IH]; intros Hnd Hel.
  - by apply elem_of_nil in Hel.
  - apply NoDup_cons in Hnd as [Hy Hnd]. rewrite filter_cons.
    destruct (decide (y = x)) as [->|Hne].
    + cbn. by rewrite occurs_never.
    + apply IH; [done|]. apply elem_of_cons in Hel as [?|?]; congruence.
Qed.

(** ** The entry point, request by request *)

Section DispatchFacts.

Variable operator_new : gset ptr → ptr.

Lemma mexFunction_release (s : state) (a : mxArray) :
  mxGetData a ≠ null →
  mexFunction operator_new s [a] =
  if decide (mxGetData a ∈ collector s) then
    if decide (mxGetData a ∈ live s)
    then Return (State (collector s ∖ {[mxGetData a]})
                       (live s ∖ {[mxGetData a]})
                       (mxGetData a :: deleted s) true) None
    else Undefined
  else Return (mexAtExit s) None.
Proof.
  intros Hh. unfold mexFunction. cbn [lookup list_lookup length].
  rewrite decide_True by done. rewrite decide_False by lia.
  destruct (decide (mxGetData a ∈ collector s)) as [Hin|Hout].
  - rewrite collector_erase_present by done. rewrite decide_True by done.
    unfold delete_. cbn [live collector deleted at_exit mexAtExit].
    by destruct (decide (mxGetData a ∈ live s)).
  - rewrite collector_erase_absent by done. by rewrite decide_False by lia.
Qed.

Lemma mexFunction_persist (s : state) (a b : mxArray) (rest : list mxArray) :
  mxGetData a ≠ null →
  mexFunction operator_new s (a :: b :: rest) =
  Return (collector_insert (mxGetData a) (mexAtExit s)) None.
Proof.
  intros Hh. unfold mexFunction. cbn [lookup list_lookup length].
  rewrite decide_True by done. by rewrite decide_True by lia.
Qed.

Lemma mexFunction_construct (s : state) (a b : mxArray)
    (rest : list mxArray) :
  mxGetData a = null →
  mexFunction operator_new s (a :: b :: rest) =
  match unwrap_int b with
  | None => Raise MarshalError (mexAtExit s)
  | Some nc =>
    if decide (nc = 0%Z) then
      let p := operator_new (live s) in
      Return (State ({[p]} ∪ collector s) ({[p]} ∪ live s) (deleted s) true)
             (Some (NumericMatrix 1 1 p))
    else
      Return (collector_insert null (mexAtExit s))
             (Some (NumericMatrix 1 1 null))
  end.
Proof.
  intros Hh. unfold mexFunction. cbn [lookup list_lookup length].
  rewrite Hh. rewrite decide_False by (intros Hn; by apply Hn).
  destruct (unwrap_int b) as [nc|]; [|done].
  by destruct (decide (nc = 0%Z)).
Qed.

(** C1, as the code has it. A release request (non-null first slot, no
    second input) for the handle [h], which if registered is the address of
    an allocated cell, erases [h] from the collector and deletes its cell
    exactly when [h] is a member; when it is not, the collector, the cells
    and the record of deletions stay as they were.  Either way [h] is
    absent afterwards, so a second release of the same handle changes
    nothing and deletes nothing. *)
Theorem release_iff_member (s : state) (a : mxArray) (h : ptr) :
  mxGetData a = h → h ≠ null →
  (h ∈ collector s → h ∈ live s) →
  ∃ s', mexFunction operator_new s [a] = Return s' None
    ∧ (h ∈ collector s →
         s' = State (collector s ∖ {[h]}) (live s ∖ {[h]})
                    (h :: deleted s) true)
    ∧ (h ∉ collector s →
         s' = State (collector s) (live s) (deleted s) true)
    ∧ (h ∉ collector s')
    ∧ mexFunction operator_new s' [a] = Return s' None.
Proof.
  intros <- Hh Hlive. rewrite mexFunction_release by done.
  destruct (decide (mxGetData a ∈ collector s)) as [Hin|Hout].
  - rewrite decide_True by (by apply Hlive).
    eexists. split; [done|]. split; [done|]. split; [done|].
    assert (mxGetData a ∉ collector s ∖ {[mxGetData a]}) as Hgone
      by set_solver.
    split; [done|]. rewrite mexFunction_release by done.
    cbn [collector]. by rewrite decide_False.
  - exists (mexAtExit s). split; [done|]. split; [done|]. split; [done|].
    split; [done|]. rewrite mexFunction_release by done.
    cbn [collector mexAtExit]. by rewrite decide_False.
Qed.

(** C6. A call with a non-null first slot and at least one more input
    inserts the handle into the collector and does nothing else to the
    registry or the instances: the cells and the record of deletions are as
    before and [out[0]] is not assigned. *)
Theorem persist_only_inserts (s : state) (a b : mxArray)
    (rest : list mxArray) (h : ptr) :
  mxGetData a = h → h ≠ null →
  mexFunction operator_new s (a :: b :: rest) =
  Return (State ({[h]} ∪ collector s) (live s) (deleted s) true) None.
Proof. intros <- Hh. by rewrite mexFunction_persist. Qed.

(** C4, as the code has it. A call with a null first slot and a selector
    other than 0 raises no error: it returns normally with the null handle
    in [out[0]], allocates and deletes nothing, and leaves the membership
    of every non-null handle as it was. *)
Theorem unmatched_selector_returns_null (s : state) (a b : mxArray)
    (rest : list mxArray) (nc : Z) :
  mxGetData a = null → unwrap_int b = Some nc → nc ≠ 0%Z →
  ∃ s', mexFunction operator_new s (a :: b :: rest) =
        Return s' (Some (NumericMatrix 1 1 null))
    ∧ live s' = live s ∧ deleted s' = deleted s
    ∧ ∀ h, h ≠ null → (h ∈ collector s' ↔ h ∈ collector s).
Proof.
  intros Ha Hb Hnc. rewrite mexFunction_construct by done. rewrite Hb.
  rewrite decide_False by done. eexists. split; [done|].
  split; [done|]. split; [done|]. intros h Hh. cbn. set_solver.
Qed.

(** A call that returns or raises never shrinks the collector except by
    the handle a release request names. *)
Lemma call_removes_only_released (s s' : state) (in_ : list mxArray)
    (h : ptr) :
  step operator_new s (Call in_) = Some s' →
  h ∈ collector s → h ∉ collector s' → is_release h in_.
Proof.
  intros Hstep Hin Hout. cbn [step] in Hstep.
  destruct in_ as [|a [|b rest]].
  - discriminate.
  - destruct (decide (mxGetData a = null)) as [Hnull|Hnn].
    + unfold mexFunction in Hstep. cbn [lookup list_lookup] in Hstep.
      rewrite decide_False in Hstep by (intros Hn; by apply Hn).
      discriminate.
    + rewrite mexFunction_release in Hstep by done.
      destruct (decide (mxGetData a ∈ collector s)).
      * destruct (decide (mxGetData a ∈ live s)); [|done].
        injection Hstep as <-. cbn [collector] in Hout.
        exists a. split; [done|].
        destruct (decide (mxGetData a = h)) as [Heq|Hne];
          [split; congruence|].
        exfalso. apply Hout. set_solver.
      * injection Hstep as <-. done.
  - exfalso. destruct (decide (mxGetData a = null)) as [Hnull|Hnn].
    + rewrite mexFunction_construct in Hstep by done.
      destruct (unwrap_int b) as [nc|].
      * destruct (decide (nc = 0%Z)); injection Hstep as <-;
          cbn [collector collector_insert mexAtExit] in Hout; set_solver.
      * injection Hstep as <-. done.
    + rewrite mexFunction_persist in Hstep by done.
      injection Hstep as <-.
      cbn [collector collector_insert mexAtExit] in Hout. set_solver.
Qed.

(** C7. Over any sequence of calls and unloads that runs to the end, a
    handle that was in the collector at the start and is not at the end
    was the subject of a release request in the sequence, or the sequence
    contains an unload.  Constructions and persistent registrations are
    not release requests, so they remove nothing. *)
Theorem removal_only_by_release_or_unload (es : list event)
    (s s' : state) (h : ptr) :
  run operator_new s es = Some s' →
  h ∈ collector s → h ∉ collector s' →
  ∃ e, e ∈ es ∧ (e = Unload ∨ ∃ in_, e = Call in_ ∧ is_release h in_).
Proof.
  revert s. induction es as [|e es IH]; intros s Hrun Hin Hout.
  - cbn in Hrun. injection Hrun as <-. done.
  - cbn [run] in Hrun.
    destruct (step operator_new s e) as [s1|] eqn:Hstep; [|done].
    destruct e as [in_|].
    + destruct (decide (h ∈ collector s1)) as [Hkept|Hgone].
      * destruct (IH s1 Hrun Hkept Hout) as (e' & Hel & He').
        exists e'. split; [by apply list_elem_of_further | done].
      * exists (Call in_). split; [apply list_elem_of_here|].
        right. exists in_. split; [done|].
        by apply (call_removes_only_released s s1).
    + exists Unload. split; [apply list_elem_of_here | by left].
Qed.

(** C9. The collector never lists a handle twice.  After a persistent
    registration it lists the handle exactly once; when the handle was
    already a member the collector is what it was, and repeating the
    registration changes nothing further. *)
Theorem registration_is_idempotent (s : state) (a b : mxArray)
    (rest : list mxArray) (h : ptr) :
  mxGetData a = h → h ≠ null →
  NoDup (collector_range s)
  ∧ ∃ s', mexFunction operator_new s (a :: b :: rest) = Return s' None
      ∧ NoDup (collector_range s')
      ∧ length (filter (λ p, p = h) (collector_range s')) = 1
      ∧ (h ∈ collector s → collector s' = collector s)
      ∧ mexFunction operator_new s' (a :: b :: rest) = Return s' None.
Proof.
  assert (∀ t, NoDup (collector_range t)) as Hnd.
  { intros t. unfold collector_range. rewrite merge_sort_Permutation.
    apply NoDup_elements. }
  intros <- Hh. split; [apply Hnd|].
  rewrite mexFunction_persist by done. eexists. split; [done|].
  split; [apply Hnd|]. split; [|split].
  - apply occurs_once; [apply Hnd|].
    apply elem_of_collector_range. cbn. set_solver.
  - intros Hin. cbn. set_solver.
  - rewrite mexFunction_persist by done. f_equal.
    rewrite mexAtExit_registered by done.
    apply collector_insert_present. cbn. set_solver.
Qed.

Section FreshAllocator.

(** What the dispatcher may assume of [operator new]: the address it
    returns is not in use and is not null. *)
Hypothesis new_fresh : ∀ X, operator_new X ∉ X.
Hypothesis new_nonnull : ∀ X, operator_new X ≠ null.

(** C5. A call with a null first slot and selector 0 allocates a cell at
    an address that was not in use and is not null, inserts that address
    into the collector and returns it in [out[0]] as a 1x1 numeric
    matrix. *)
Theorem construct_registers_new_handle (s : state) (a b : mxArray)
    (rest : list mxArray) :
  mxGetData a = null → unwrap_int b = Some 0%Z →
  ∃ p, (p ∉ live s) ∧ p ≠ null
    ∧ mexFunction operator_new s (a :: b :: rest) =
      Return (State ({[p]} ∪ collector s) ({[p]} ∪ live s) (deleted s) true)
             (Some (NumericMatrix 1 1 p)).
Proof.
  intros Ha Hb. exists (operator_new (live s)).
  split; [apply new_fresh|]. split; [apply new_nonnull|].
  rewrite mexFunction_construct by done. rewrite Hb.
  by rewrite decide_True.
Qed.

End FreshAllocator.

End DispatchFacts.

(** C4, as stated, fails: with selector 1 the call does not raise
    [UnknownSelector]; it returns, having inserted the null handle into the
    collector and assigned [out[0]]. *)
Lemma unmatched_selector_not_rejected :
  mexFunction bump_allocator (State ∅ ∅ [] false)
    [MxArray null None; MxArray null (Some 1%Z)] =
  Return (State {[null]} ∅ [] true) (Some (NumericMatrix 1 1 null))
  ∧ mexFunction bump_allocator (State ∅ ∅ [] false)
      [MxArray null None; MxArray null (Some 1%Z)] ≠
    Raise UnknownSelector (State ∅ ∅ [] true).
Proof. split; [by vm_compute | by vm_compute]. Qed.

Lemma release_iff_member_witness :
  ∃ s', mexFunction bump_allocator (State {[5%N]} {[5%N]} [] true)
          [MxArray 5 None] = Return s' None
    ∧ (5%N ∈ collector (State {[5%N]} {[5%N]} [] true) →
       s' = State (collector (State {[5%N]} {[5%N]} [] true) ∖ {[5%N]})
                  (live (State {[5%N]} {[5%N]} [] true) ∖ {[5%N]})
                  (5%N :: deleted (State {[5%N]} {[5%N]} [] true)) true)
    ∧ (5%N ∉ collector (State {[5%N]} {[5%N]} [] true) →
       s' = State (collector (State {[5%N]} {[5%N]} [] true))
                  (live (State {[5%N]} {[5%N]} [] true))
                  (deleted (State {[5%N]} {[5%N]} [] true)) true)
    ∧ (5%N ∉ collector s')
    ∧ mexFunction bump_allocator s' [MxArray 5 None] = Return s' None.
Proof.
  apply (release_iff_member bump_allocator (State {[5%N]} {[5%N]} [] true)
           (MxArray 5 None) 5%N);
    [reflexivity | by vm_compute | intros Hin; exact Hin].
Defined.

(** C1, as stated, fails: a persistent registration puts the word 9, which
    is not the address of any cell, into the collector, and the release of
    9 then erases it and runs [delete] on it, which is undefined; no
    instance is destroyed and the call does not return a state. *)
Lemma release_of_unallocated_word :
  run bump_allocator (State ∅ ∅ [] false)
    [Call [MxArray 9 None; MxArray 0 None]] =
  Some (State {[9%N]} ∅ [] true)
  ∧ mexFunction bump_allocator (State {[9%N]} ∅ [] true) [MxArray 9 None] =
    Undefined.
Proof. split; [by vm_compute | by vm_compute]. Qed.

Lemma persist_only_inserts_witness :
  mexFunction bump_allocator (State ∅ {[7%N]} [] true)
    [MxArray 7 None; MxArray 0 (Some 1%Z)] =
  Return (State ({[7%N]} ∪ collector (State ∅ {[7%N]} [] true))
                (live (State ∅ {[7%N]} [] true))
                (deleted (State ∅ {[7%N]} [] true)) true) None.
Proof.
  apply (persist_only_inserts bump_allocator (State ∅ {[7%N]} [] true)
           (MxArray 7 None) (MxArray 0 (Some 1%Z)) [] 7%N);
    [reflexivity | by vm_compute].
Defined.

Lemma construct_registers_new_handle_witness :
  ∃ p, (p ∉ live (State {[1%N]} {[1%N]} [] true)) ∧ p ≠ null
    ∧ mexFunction bump_allocator (State {[1%N]} {[1%N]} [] true)
        [MxArray null None; MxArray null (Some 0%Z)] =
      Return (State ({[p]} ∪ collector (State {[1%N]} {[1%N]} [] true))
                    ({[p]} ∪ live (State {[1%N]} {[1%N]} [] true))
                    (deleted (State {[1%N]} {[1%N]} [] true)) true)
             (Some (NumericMatrix 1 1 p)).
Proof.
  apply (construct_registers_new_handle bump_allocator
           bump_allocator_fresh bump_allocator_nonnull
           (State {[1%N]} {[1%N]} [] true)
           (MxArray null None) (MxArray null (Some 0%Z)) []);
    reflexivity.
Defined.

Lemma unmatched_selector_returns_null_witness :
  ∃ s', mexFunction bump_allocator (State {[1%N]} {[1%N]} [] true)
          [MxArray null None; MxArray null (Some 3%Z)] =
        Return s' (Some (NumericMatrix 1 1 null))
    ∧ live s' = live (State {[1%N]} {[1%N]} [] true)
    ∧ deleted s' = deleted (State {[1%N]} {[1%N]} [] true)
    ∧ ∀ h, h ≠ null →
        (h ∈ collector s' ↔ h ∈ collector (State {[1%N]} {[1%N]} [] true)).
Proof.
  apply (unmatched_selector_returns_null bump_allocator
           (State {[1%N]} {[1%N]} [] true)
           (MxArray null None) (MxArray null (Some 3%Z)) [] 3%Z);
    [reflexivity | reflexivity | by vm_compute].
Defined.

Lemma removal_only_by_release_or_unload_witness :
  ∃ e, e ∈ [Call [MxArray 7 None; MxArray 0 None]; Call [MxArray 5 None]]
    ∧ (e = Unload ∨ ∃ in_, e = Call in_ ∧ is_release 5%N in_).
Proof.
  apply (removal_only_by_release_or_unload bump_allocator
           [Call [MxArray 7 None; MxArray 0 None]; Call [MxArray 5 None]]
           (State {[5%N]} {[5%N]} [] false) (State {[7%N]} ∅ [5%N] true)
           5%N);
    [by vm_compute | by vm_compute | by vm_compute].
Defined.

Lemma registration_is_idempotent_witness :
  NoDup (collector_range (State {[7%N]} {[7%N]} [] true))
  ∧ ∃ s', mexFunction bump_allocator (State {[7%N]} {[7%N]} [] true)
            [MxArray 7 None; MxArray 0 None] = Return s' None
      ∧ NoDup (collector_range s')
      ∧ length (filter (λ p, p = 7%N) (collector_range s')) = 1
      ∧ (7%N ∈ collector (State {[7%N]} {[7%N]} [] true) →
         collector s' = collector (State {[7%N]} {[7%N]} [] true))
      ∧ mexFunction bump_allocator s' [MxArray 7 None; MxArray 0 None] =
        Return s' None.
Proof.
  apply (registration_is_idempotent bump_allocator
           (State {[7%N]} {[7%N]} [] true) (MxArray 7 None)
           (MxArray 0 None) [] 7%N); [reflexivity | by vm_compute].
Defined.

(** ** The exit hook *)

(** C3, where the code departs from it. The sweep completes only on a
    collector that is empty already.  On any other it erases the first
    handle and then advances the iterator that pointed at it, which is
    undefined: after three constructions the hook gets no further than the
    first of the three handles, and the unload does not run to its end. *)
Theorem cleanup_invalidates_its_iterator :
  (∀ s s' : state, cleanup s = Completed s' ↔ collector s = ∅ ∧ s' = s)
  ∧ cleanup (State {[1%N; 2%N; 3%N]} {[1%N; 2%N; 3%N]} [] true) =
    Invalidated (State {[2%N; 3%N]} {[1%N; 2%N; 3%N]} [] true)
  ∧ run bump_allocator (State ∅ ∅ [] false)
      [Call [MxArray null None; MxArray null (Some 0%Z)];
       Call [MxArray null None; MxArray null (Some 0%Z)];
       Call [MxArray null None; MxArray null (Some 0%Z)]] =
    Some (State {[1%N; 2%N; 3%N]} {[1%N; 2%N; 3%N]} [] true)
  ∧ run bump_allocator (State ∅ ∅ [] false)
      [Call [MxArray null None; MxArray null (Some 0%Z)];
       Call [MxArray null None; MxArray null (Some 0%Z)];
       Call [MxArray null None; MxArray null (Some 0%Z)];
       Unload] = None.
Proof.
  split; [apply cleanup_Completed|].
  split; [by vm_compute|]. split; by vm_compute.
Qed.

(** C2, where the code departs from it. [Destruct] only erases: wherever
    the sweep gets to, no cell has been deleted and every cell that was
    allocated is still allocated.  After one construction, which issues the
    handle 1, the hook erases the handle and leaves its cell in place,
    where a release request for the handle deletes it. *)
Theorem cleanup_deletes_nothing :
  (∀ s : state, live (reached (cleanup s)) = live s
                ∧ deleted (reached (cleanup s)) = deleted s)
  ∧ run bump_allocator (State ∅ ∅ [] false)
      [Call [MxArray null None; MxArray null (Some 0%Z)]] =
    Some (State {[1%N]} {[1%N]} [] true)
  ∧ reached (cleanup (State {[1%N]} {[1%N]} [] true)) =
    State ∅ {[1%N]} [] true
  ∧ run bump_allocator (State ∅ ∅ [] false)
      [Call [MxArray null None; MxArray null (Some 0%Z)];
       Call [MxArray 1 None]] =
    Some (State ∅ ∅ [1%N] true).
Proof.
  split; [apply cleanup_reached|].
  split; [by vm_compute|]. split; by vm_compute.
Qed.

(** ** gtsam.h *)

(** The scan for repeated names finds nothing exactly on the lists without
    duplicates. *)
Lemma redeclared_nil (seen names : list string) :
  redeclared seen names = [] ↔
  NoDup names ∧ ∀ n, n ∈ names → n ∉ seen.
Proof.
  revert seen. induction names as [|n rest IH]; intros seen; cbn.
  - split; [|done]. intros _. split; [constructor|].
    intros n Hn. by apply elem_of_nil in Hn.
  - destruct (decide (n ∈ seen)) as [Hin|Hout].
    + split; [done|]. intros [_ Hall]. exfalso.
      apply (Hall n); [apply list_elem_of_here | done].
    + rewrite IH. rewrite NoDup_cons. split.
      * intros [Hnd Hall]. split; [split; [|done]|].
        -- intros Hn. apply (Hall n Hn), list_elem_of_here.
        -- intros m Hm Hs. apply elem_of_cons in Hm as [->|Hm]; [done|].
           apply (Hall m Hm). by apply list_elem_of_further.
      * intros [[Hn Hnd] Hall]. split; [done|]. intros m Hm Hs.
        apply elem_of_cons in Hs as [->|Hs]; [done|].
        apply (Hall m); [by apply list_elem_of_further | done].
Qed.

Lemma check_duplicate_methods_None (c : ClassDecl) :
  check_duplicate_methods c = None ↔ unique_method_names c.
Proof.
  unfold check_duplicate_methods, duplicated_names, unique_method_names.
  pose proof (redeclared_nil [] (method_names c)) as Hiff.
  destruct (redeclared [] (method_names c)) as [|n l].
  - split; [|done]. intros _. by apply Hiff.
  - split; [done|]. intros Hnd.
    assert (n :: l = []) as Hnil; [|done].
    apply Hiff. split; [done|]. intros m _ Hm. by apply elem_of_nil in Hm.
Qed.

(** C8, where the file departs from it. [Rot3] declares [RzRyRx] twice and
    each of [ypr], [roll], [pitch] and [yaw] once as a static and once as a
    member method, so not every class of [gtsam.h] has unique method names;
    the duplicate check fails on [Rot3], and on no other class. *)
Theorem gtsam_h_has_duplicate_methods :
  ¬ Forall unique_method_names gtsam_h
  ∧ filter (λ c, ¬ unique_method_names c) gtsam_h = [Rot3]
  ∧ duplicated_names Rot3 = ["RzRyRx"; "ypr"; "roll"; "pitch"; "yaw"]
  ∧ duplicate_method_errors gtsam_h = [DuplicateMethod "Rot3" "RzRyRx"].
Proof.
  split; [|split; [|split]].
  - intros Hall. rewrite Forall_forall in Hall.
    assert (unique_method_names Rot3) as Hrot3.
    { apply Hall. unfold gtsam_h. set_solver. }
    apply check_duplicate_methods_None in Hrot3. discriminate Hrot3.
  - by vm_compute.
  - by vm_compute.
  - by vm_compute.
Qed.

(** ** DerivedValue.h *)

Section DerivedValueFacts.

Context {Vector Double type_info : Type} `{EqDecision type_info}.
Context {object : type_info → Type}.
Context `{∀ c, Derived Vector Double (object c)}.
Context `{Hierarchy type_info object}.

Variable singleton_pool_malloc : gset N → N.

(** The cast succeeds on an object of the class, and gives that object. *)
Lemma dynamic_cast_upcast (c : type_info) (d : object c) :
  dynamic_cast c (upcast d) = Returns d.
Proof.
  unfold dynamic_cast. cbn.
  destruct (decide (c = c)) as [e|]; [|done].
  by rewrite (proof_irrel e eq_refl).
Qed.




(** C10. On an argument whose dynamic type is the derived class, [equals_]
    returns what the class's [equals] returns and [localCoordinates_] what
    its [localCoordinates] returns; the [Value] that [retract_] returns a
    pointer to is the result of the class's [retract], held in a chunk of
    the pool, with every other chunk as before. *)
Theorem derived_value_refines (c : type_info) (v w : object c)
    (tol : Double) (delta : Vector) (pool : gmap N (Value object)) :
  equals_ v (upcast w) tol = Returns (equals v w tol)
  ∧ localCoordinates_ v (upcast w) = Returns (localCoordinates v w)
  ∧ ∃ place, retract_ singleton_pool_malloc v delta pool =
             (place, <[place := upcast (retract v delta)]> pool)
      ∧ snd (retract_ singleton_pool_malloc v delta pool) !! place =
        Some (upcast (retract v delta))
      ∧ typeid (upcast (retract v delta)) = c.
Proof.
  split; [|split].
  - unfold equals_. by rewrite dynamic_cast_upcast.
  - unfold localCoordinates_. by rewrite dynamic_cast_upcast.
  - exists (singleton_pool_malloc (dom pool)). split; [done|].
    split; [|done]. unfold retract_. cbn [snd].
    apply lookup_insert_eq.
Qed.

End DerivedValueFacts.

(** ** More on the entry point *)

Section DispatchMore.

Variable operator_new : gset ptr → ptr.

(** The first slot of a call that is not a persistent registration and has
    a second input is null. *)
Lemma persists_false (a b : mxArray) (rest : list mxArray) :
  persists (Call (a :: b :: rest)) = false → mxGetData a = null.
Proof.
  cbn. intros Hp. apply bool_decide_eq_false in Hp.
  destruct (decide (mxGetData a = null)); [done | by destruct Hp].
Qed.

(** X3. A call that returns assigns [out[0]] exactly when its first slot
    is null, that is on a construction; what it assigns is a 1x1 matrix, and
    the handle in it is in the collector when the call returns. *)
Theorem mexFunction_result_is_registered (s s' : state)
    (in_ : list mxArray) (out0 : option mxNumericMatrix) :
  mexFunction operator_new s in_ = Return s' out0 →
  (out0 = None ↔ ∃ a, in_ !! 0%nat = Some a ∧ mxGetData a ≠ null)
  ∧ ∀ m, out0 = Some m →
      mx_rows m = 1 ∧ mx_cols m = 1 ∧ mx_word m ∈ collector s'.
Proof.
  intros Hr. destruct in_ as [|a [|b rest]].
  - done.
  - destruct (decide (mxGetData a = null)) as [Hnull|Hnn].
    + unfold mexFunction in Hr. cbn [lookup list_lookup] in Hr.
      by rewrite decide_False in Hr by (intros Hn; by apply Hn).
    + rewrite mexFunction_release in Hr by done.
      assert (out0 = None) as ->.
      { destruct (decide (mxGetData a ∈ collector s));
          [destruct (decide (mxGetData a ∈ live s)); [|done]|];
          by injection Hr as _ <-. }
      split; [|done]. split; [|done]. intros _. by exists a.
  - destruct (decide (mxGetData a = null)) as [Hnull|Hnn].
    + rewrite mexFunction_construct in Hr by done.
      destruct (unwrap_int b) as [nc|]; [|done].
      destruct (decide (nc = 0%Z)); injection Hr as <- <-.
      * split.
        -- split; [done|]. intros (a' & [= <-] & Hne). done.
        -- intros m [= <-]. cbn. set_solver.
      * split.
        -- split; [done|]. intros (a' & [= <-] & Hne). done.
        -- intros m [= <-]. cbn. set_solver.
    + rewrite mexFunction_persist in Hr by done. injection Hr as <- <-.
      split; [|done]. split; [|done]. intros _. by exists a.
Qed.

(** One step that is not a persistent registration keeps the handles of the
    collector allocated. *)
Lemma step_handles_live (s s' : state) (e : event) :
  handles_live s → persists e = false →
  step operator_new s e = Some s' → handles_live s'.
Proof.
  intros Hinv Hp Hs. destruct e as [in_|].
  - cbn [step] in Hs. destruct in_ as [|a [|b rest]].
    + done.
    + destruct (decide (mxGetData a = null)) as [Hnull|Hnn].
      * unfold mexFunction in Hs. cbn [lookup list_lookup] in Hs.
        by rewrite decide_False in Hs by (intros Hn; by apply Hn).
      * rewrite mexFunction_release in Hs by done.
        destruct (decide (mxGetData a ∈ collector s));
          [destruct (decide (mxGetData a ∈ live s)); [|done]|];
          injection Hs as <-; intros h Hh Hne; cbn in *.
        -- apply elem_of_difference in Hh as [Hh Hneq].
           apply elem_of_difference. split; [by apply Hinv | done].
        -- by apply Hinv.
    + apply persists_false in Hp.
      rewrite mexFunction_construct in Hs by done.
      destruct (unwrap_int b) as [nc|].
      * destruct (decide (nc = 0%Z)); injection Hs as <-;
          intros h Hh Hne; cbn in *.
        -- apply elem_of_union in Hh as [Hh|Hh]; [set_solver|].
           apply elem_of_union. right. by apply Hinv.
        -- apply elem_of_union in Hh as [Hh|Hh]; [set_solver|].
           by apply Hinv.
      * injection Hs as <-. intros h Hh Hne. by apply Hinv.
  - cbn in Hs. destruct (at_exit s); [|by injection Hs as <-].
    destruct (cleanup s) as [s1|s1] eqn:Hc; [|done]. injection Hs as <-.
    apply cleanup_Completed in Hc as [_ ->]. done.
Qed.

(** X5. Constructions, releases and unloads keep the registry sound: if
    every non-null handle of the collector is the address of an allocated
    cell, so it is after any sequence of events without a persistent
    registration. *)
Theorem handles_stay_live (es : list event) (s s' : state) :
  handles_live s →
  Forall (λ e, persists e = false) es →
  run operator_new s es = Some s' →
  handles_live s'.
Proof.
  revert s. induction es as [|e es IH]; intros s Hinv Hall Hrun.
  - cbn in Hrun. by injection Hrun as <-.
  - cbn [run] in Hrun. apply Forall_cons in Hall as [Hp Hall].
    destruct (step operator_new s e) as [s1|] eqn:Hstep; [|done].
    apply (IH s1); [|done|done]. by apply (step_handles_live s s1 e).
Qed.

(** X6. A call deletes at most one cell, and only on a release request.
    When every non-null handle of the collector is the address of an
    allocated cell, the cell a release deletes is allocated before the call
    and is not after it: nothing is deleted twice. *)
Theorem delete_only_live_on_release (s s' : state) (in_ : list mxArray)
    (out0 : option mxNumericMatrix) :
  handles_live s →
  mexFunction operator_new s in_ = Return s' out0 →
  deleted s' = deleted s
  ∨ ∃ h, is_release h in_ ∧ deleted s' = h :: deleted s
      ∧ h ∈ live s ∧ live s' = live s ∖ {[h]}.
Proof.
  intros Hinv Hr. destruct in_ as [|a [|b rest]].
  - done.
  - destruct (decide (mxGetData a = null)) as [Hnull|Hnn].
    + unfold mexFunction in Hr. cbn [lookup list_lookup] in Hr.
      by rewrite decide_False in Hr by (intros Hn; by apply Hn).
    + rewrite mexFunction_release in Hr by done.
      destruct (decide (mxGetData a ∈ collector s)) as [Hin|Hout];
        [destruct (decide (mxGetData a ∈ live s)); [|done]|];
        injection Hr as <- <-; [|by left].
      right. exists (mxGetData a). split; [by exists a|].
      split; [done|]. split; [by apply Hinv | done].
  - left. destruct (decide (mxGetData a = null)) as [Hnull|Hnn].
    + rewrite mexFunction_construct in Hr by done.
      destruct (unwrap_int b) as [nc|]; [|done].
      by destruct (decide (nc = 0%Z)); injection Hr as <- <-.
    + rewrite mexFunction_persist in Hr by done. by injection Hr as <- <-.
Qed.

(** X7. A persistent registration takes any non-null word as a handle
    without looking at it.  When the word is not the address of an
    allocated cell, the release of it that follows erases it and runs
    [delete] on it, which is undefined: the two calls do not run to the
    end. *)
Theorem persist_then_release_of_junk (s : state) (a b : mxArray)
    (h : ptr) :
  mxGetData a = h → h ≠ null → h ∉ live s →
  run operator_new s [Call [a; b]] =
  Some (State ({[h]} ∪ collector s) (live s) (deleted s) true)
  ∧ run operator_new s [Call [a; b]; Call [a]] = None.
Proof.
  intros <- Hh Hjunk. cbn [run step]. rewrite mexFunction_persist by done.
  split; [done|]. cbn [run step]. rewrite mexFunction_release by done.
  rewrite decide_True by (cbn; set_solver).
  by rewrite decide_False by done.
Qed.

Section FreshCell.

Variable s : state.

(** The address [operator new] returns in state [s] is not in use and is
    not null. *)
Hypothesis new_fresh : operator_new (live s) ∉ live s.
Hypothesis new_nonnull : operator_new (live s) ≠ null.

(** X8. A construction followed by the release of the handle it returned
    leaves the collector and the cells as they were before the two calls,
    provided the handles of the collector were allocated cells; the one
    trace is the [delete] of the new cell. *)
Theorem construct_then_release_restores (a b a' : mxArray)
    (rest : list mxArray) :
  handles_live s →
  mxGetData a = null → unwrap_int b = Some 0%Z →
  mxGetData a' = operator_new (live s) →
  run operator_new s [Call (a :: b :: rest); Call [a']] =
  Some (State (collector s) (live s)
              (operator_new (live s) :: deleted s) true).
Proof.
  intros Hinv Ha Hb Ha'. cbn [run step].
  rewrite mexFunction_construct by done. rewrite Hb.
  rewrite decide_True by done. cbn [run step].
  rewrite mexFunction_release by (by rewrite Ha').
  rewrite Ha'. rewrite decide_True by (cbn; set_solver).
  rewrite decide_True by (cbn; set_solver). cbn.
  assert (operator_new (live s) ∉ collector s) as Hnc.
  { intros Hin. by apply new_fresh, Hinv. }
  do 2 f_equal; set_solver.
Qed.

(** X9. A construction adds exactly one handle to the collector, and it is
    a handle that was not registered before, provided the handles of the
    collector were allocated cells. *)
Theorem construct_adds_one_handle (s' : state) (a b : mxArray)
    (rest : list mxArray) (m : mxNumericMatrix) :
  handles_live s →
  mxGetData a = null → unwrap_int b = Some 0%Z →
  mexFunction operator_new s (a :: b :: rest) = Return s' (Some m) →
  (mx_word m ∉ collector s)
  ∧ collector s' = {[mx_word m]} ∪ collector s
  ∧ size (collector s') = S (size (collector s)).
Proof.
  intros Hinv Ha Hb Hr. rewrite mexFunction_construct in Hr by done.
  rewrite Hb in Hr. rewrite decide_True in Hr by done.
  injection Hr as <- <-. cbn.
  assert (operator_new (live s) ∉ collector s) as Hnc.
  { intros Hin. by apply new_fresh, Hinv. }
  split; [done|]. split; [done|].
  rewrite size_union by set_solver. by rewrite size_singleton.
Qed.

End FreshCell.

End DispatchMore.

Lemma mexFunction_result_is_registered_witness :
  (Some (NumericMatrix 1 1 1%N) = None ↔
   ∃ a, [MxArray null None; MxArray 0 (Some 0%Z)] !! 0%nat = Some a
        ∧ mxGetData a ≠ null)
  ∧ ∀ m, Some (NumericMatrix 1 1 1%N) = Some m →
      mx_rows m = 1 ∧ mx_cols m = 1
      ∧ mx_word m ∈ collector (State {[1%N]} {[1%N]} [] true).
Proof.
  apply (mexFunction_result_is_registered bump_allocator
           (State ∅ ∅ [] false) (State {[1%N]} {[1%N]} [] true)
           [MxArray null None; MxArray 0 (Some 0%Z)]
           (Some (NumericMatrix 1 1 1%N))).
  by vm_compute.
Defined.

Lemma handles_stay_live_witness :
  handles_live (State {[2%N]} {[2%N]} [1%N] true).
Proof.
  apply (handles_stay_live bump_allocator
           [Call [MxArray null None; MxArray 0 (Some 0%Z)];
            Call [MxArray null None; MxArray 0 (Some 0%Z)];
            Call [MxArray 1 None]]
           (State ∅ ∅ [] false) (State {[2%N]} {[2%N]} [1%N] true)).
  - intros h Hh. by apply not_elem_of_empty in Hh.
  - repeat constructor.
  - by vm_compute.
Defined.

Lemma delete_only_live_on_release_witness :
  deleted (State ∅ ∅ [1%N] true) = deleted (State {[1%N]} {[1%N]} [] true)
  ∨ ∃ h, is_release h [MxArray 1 None]
      ∧ deleted (State ∅ ∅ [1%N] true) =
        h :: deleted (State {[1%N]} {[1%N]} [] true)
      ∧ h ∈ live (State {[1%N]} {[1%N]} [] true)
      ∧ live (State ∅ ∅ [1%N] true) =
        live (State {[1%N]} {[1%N]} [] true) ∖ {[h]}.
Proof.
  apply (delete_only_live_on_release bump_allocator
           (State {[1%N]} {[1%N]} [] true) (State ∅ ∅ [1%N] true)
           [MxArray 1 None] None).
  - intros h Hh _. exact Hh.
  - by vm_compute.
Defined.

Lemma persist_then_release_of_junk_witness :
  run bump_allocator (State ∅ ∅ [] false)
    [Call [MxArray 9 None; MxArray 0 None]] =
  Some (State ({[9%N]} ∪ collector (State ∅ ∅ [] false))
              (live (State ∅ ∅ [] false))
              (deleted (State ∅ ∅ [] false)) true)
  ∧ run bump_allocator (State ∅ ∅ [] false)
      [Call [MxArray 9 None; MxArray 0 None]; Call [MxArray 9 None]] =
    None.
Proof.
  apply (persist_then_release_of_junk bump_allocator (State ∅ ∅ [] false)
           (MxArray 9 None) (MxArray 0 None) 9%N);
    [reflexivity | by vm_compute | by vm_compute].
Defined.

Lemma construct_then_release_restores_witness :
  run bump_allocator (State ∅ ∅ [] false)
    [Call (MxArray null None :: MxArray 0 (Some 0%Z) :: []);
     Call [MxArray 1 None]] =
  Some (State (collector (State ∅ ∅ [] false)) (live (State ∅ ∅ [] false))
              (bump_allocator (live (State ∅ ∅ [] false))
               :: deleted (State ∅ ∅ [] false)) true).
Proof.
  apply (construct_then_release_restores bump_allocator
           (State ∅ ∅ [] false)
           (bump_allocator_fresh _) (bump_allocator_nonnull _)
           (MxArray null None) (MxArray 0 (Some 0%Z)) (MxArray 1 None) []).
  - intros h Hh. by apply not_elem_of_empty in Hh.
  - reflexivity.
  - reflexivity.
  - by vm_compute.
Defined.

Lemma construct_adds_one_handle_witness :
  (mx_word (NumericMatrix 1 1 1%N) ∉ collector (State ∅ ∅ [] false))
  ∧ collector (State {[1%N]} {[1%N]} [] true) =
    {[mx_word (NumericMatrix 1 1 1%N)]} ∪ collector (State ∅ ∅ [] false)
  ∧ size (collector (State {[1%N]} {[1%N]} [] true)) =
    S (size (collector (State ∅ ∅ [] false))).
Proof.
  apply (construct_adds_one_handle bump_allocator (State ∅ ∅ [] false)
           (bump_allocator_fresh _) (bump_allocator_nonnull _)
           (State {[1%N]} {[1%N]} [] true)
           (MxArray null None) (MxArray 0 (Some 0%Z)) []
           (NumericMatrix 1 1 1%N)).
  - intros h Hh. by apply not_elem_of_empty in Hh.
  - reflexivity.
  - reflexivity.
  - by vm_compute.
Defined.

(** ** More on DerivedValue *)

Section DerivedValueMore.

Context {Vector Double type_info : Type} `{EqDecision type_info}.
Context {object : type_info → Type}.
Context `{∀ c, Derived Vector Double (object c)}.
Context `{Hierarchy type_info object}.

Variable singleton_pool_malloc : gset N → N.


(** X12. The chunk [clone_] returns holds a [Value] of the same class that
    casts back to the object cloned, so the clone compares, through
    [equals_] and [localCoordinates_], as the original does. *)
Theorem clone_is_faithful (c : type_info) (this other : object c)
    (tol : Double) (pool : gmap N (Value object)) :
  ∃ place pool' v,
    clone_ singleton_pool_malloc this pool = (place, pool')
    ∧ pool' !! place = Some v
    ∧ typeid v = c
    ∧ dynamic_cast c v = Returns this
    ∧ equals_ other v tol = Returns (equals other this tol)
    ∧ localCoordinates_ other v = Returns (localCoordinates other this).
Proof.
  exists (singleton_pool_malloc (dom pool)).
  eexists. exists (upcast this). split; [done|].
  split; [apply lookup_insert_eq|]. split; [done|].
  unfold equals_, localCoordinates_. by rewrite dynamic_cast_upcast.
Qed.

(** X13. Allocation and deallocation cancel: when [malloc] hands out a
    chunk that is not in use, deallocating the result of [clone_] or of
    [retract_] gives back the pool as it was. *)
Theorem deallocate_undoes_allocation (c : type_info) (this : object c)
    (delta : Vector) (pool : gmap N (Value object)) :
  singleton_pool_malloc (dom pool) ∉ dom pool →
  deallocate_ (clone_ singleton_pool_malloc this pool).1
              (clone_ singleton_pool_malloc this pool).2 = pool
  ∧ deallocate_ (retract_ singleton_pool_malloc this delta pool).1
                (retract_ singleton_pool_malloc this delta pool).2 = pool.
Proof.
  intros Hfresh. apply not_elem_of_dom in Hfresh.
  unfold deallocate_, clone_, retract_. cbn [fst snd].
  by rewrite !delete_insert_id.
Qed.

(** X14. [clone_] and [retract_] disturb no object of the pool: when
    [malloc] hands out a chunk that is not in use, every chunk in use keeps
    its object and exactly one chunk is added. *)
Theorem allocation_keeps_the_pool (c : type_info) (this : object c)
    (delta : Vector) (pool : gmap N (Value object)) :
  singleton_pool_malloc (dom pool) ∉ dom pool →
  pool ⊆ (clone_ singleton_pool_malloc this pool).2
  ∧ size (clone_ singleton_pool_malloc this pool).2 = S (size pool)
  ∧ pool ⊆ (retract_ singleton_pool_malloc this delta pool).2
  ∧ size (retract_ singleton_pool_malloc this delta pool).2 = S (size pool).
Proof.
  intros Hfresh. apply not_elem_of_dom in Hfresh.
  unfold clone_, retract_. cbn [snd].
  rewrite !map_size_insert_None by done.
  split; [by apply insert_subseteq|]. split; [done|].
  split; [by apply insert_subseteq | done].
Qed.

End DerivedValueMore.

Lemma deallocate_undoes_allocation_witness :
  deallocate_
    (clone_ (object := λ _ : unit, Z) bump_allocator (c := tt) 7%Z ∅).1
    (clone_ (object := λ _ : unit, Z) bump_allocator (c := tt) 7%Z ∅).2 = ∅
  ∧ deallocate_
      (retract_ (object := λ _ : unit, Z) (H := λ _, Z_Derived)
         bump_allocator (c := tt) 7%Z 2%Z ∅).1
      (retract_ (object := λ _ : unit, Z) (H := λ _, Z_Derived)
         bump_allocator (c := tt) 7%Z 2%Z ∅).2 = ∅.
Proof.
  apply (deallocate_undoes_allocation (object := λ _ : unit, Z)
           (H := λ _, Z_Derived) bump_allocator tt 7%Z 2%Z ∅).
  by vm_compute.
Defined.

Lemma allocation_keeps_the_pool_witness :
  (∅ : gmap N (Value (λ _ : unit, Z))) ⊆
    (clone_ (object := λ _ : unit, Z) bump_allocator (c := tt) 7%Z ∅).2
  ∧ size (clone_ (object := λ _ : unit, Z) bump_allocator (c := tt)
            7%Z ∅).2 = S (size (∅ : gmap N (Value (λ _ : unit, Z))))
  ∧ (∅ : gmap N (Value (λ _ : unit, Z))) ⊆
      (retract_ (object := λ _ : unit, Z) (H := λ _, Z_Derived)
         bump_allocator (c := tt) 7%Z 2%Z ∅).2
  ∧ size (retract_ (object := λ _ : unit, Z) (H := λ _, Z_Derived)
            bump_allocator (c := tt) 7%Z 2%Z ∅).2 =
    S (size (∅ : gmap N (Value (λ _ : unit, Z)))).
Proof.
  apply (allocation_keeps_the_pool (object := λ _ : unit, Z)
           (H := λ _, Z_Derived) bump_allocator tt 7%Z 2%Z ∅).
  by vm_compute.
Defined.

(** ** More on gtsam.h *)

(** X15. The file keeps the naming rules of its header comment: every
    class name starts with an uppercase letter, every namespace and every
    method that is not static with a lowercase letter, and every static
    method with a letter. *)
Theorem gtsam_h_is_well_cased :
  Forall (λ c, class_well_cased c = true) gtsam_h.
Proof. apply (bool_decide_unpack _). by vm_compute. Qed.

(** X16. Every type the file mentions is one its header comment allows:
    each argument type is an Eigen type, a basic type or the fully qualified
    name of a class declared in the file, each return type is one of these
    or [void], and what is passed or returned through a shared pointer is a
    class. *)
Theorem gtsam_h_types_are_resolved :
  Forall (λ c,
    Forall (resolved gtsam_h) (argument_types c)
    ∧ Forall (λ t, t = "void" ∨ resolved gtsam_h t) (return_types c)
    ∧ Forall (λ a, arg_mode a = ByPointer → arg_type a ∉ basic_types)
        (mjoin (c_constructors c) ++ mjoin (m_args <$> c_methods c))
    ∧ Forall (λ m, ret_shared (m_return m) = true →
                   ret_type (m_return m) ∉ "void" :: basic_types)
        (c_methods c))
    gtsam_h.
Proof. apply (bool_decide_unpack _). by vm_compute. Qed.

(** ** The null handle *)

Section NullHandle.

Variable operator_new : gset ptr → ptr.

(** X17. No call takes the null handle out of the collector: a request
    with a null first slot is a construction, never a release.  Once a
    construction with an unmatched selector has put it there, it stays
    through every sequence of calls that contains no unload. *)
Theorem null_handle_stays_until_unload (es : list event) (s s' : state) :
  run operator_new s es = Some s' →
  Unload ∉ es →
  null ∈ collector s →
  null ∈ collector s'.
Proof.
  revert s. induction es as [|e es IH]; intros s Hrun Hno Hin.
  - cbn in Hrun. by injection Hrun as <-.
  - cbn [run] in Hrun. apply not_elem_of_cons in Hno as [Hne Hno].
    destruct (step operator_new s e) as [s1|] eqn:Hstep; [|done].
    apply (IH s1); [done|done|].
    destruct e as [in_|]; [|done].
    destruct (decide (null ∈ collector s1)) as [|Hgone]; [done|].
    destruct (call_removes_only_released operator_new s s1 in_ null)
      as (a & _ & _ & Hnn); done.
Qed.

End NullHandle.

Lemma null_handle_stays_until_unload_witness :
  null ∈ collector (State {[null]} ∅ [1%N] true).
Proof.
  apply (null_handle_stays_until_unload bump_allocator
           [Call [MxArray null None; MxArray 0 (Some 0%Z)];
            Call [MxArray 1 None]]
           (State {[null]} ∅ [] true) (State {[null]} ∅ [1%N] true)).
  - by vm_compute.
  - intros Hin. repeat (apply elem_of_cons in Hin as [Hin|Hin]; [done|]).
    by apply elem_of_nil in Hin.
  - by vm_compute.
Defined.
